(** * imgmatch: a shallow embedding of [imgmatch.py]

    The module has three classes: [ImageDescriptor] (load, resize, SURF
    descriptors), [DatabaseBuilder] (walk a folder, save one array per image)
    and [Matcher] (score every saved array against a query image).

    Conventions of the embedding.
    - Python exceptions are values of [error]; a computation that can raise
      has type [result A].
    - Numbers that are floats in the program (the scale factor, the distances,
      the threshold, the score) are exact rationals [Q]: rounding of floating
      point arithmetic is not modelled.
    - OpenCV ([cv2]) is not part of the program.  Its entry points are the
      fields of the class [Cv2]; what the proofs need to know about them is
      stated as separate, named contracts.
    - The directory handed to [os.walk] is a tree ([node]); [numpy.load]
      reads the content stored in that tree. *)

From Stdlib Require Import List String Ascii Bool Arith ZArith QArith Qabs Qround
  Permutation Lia Lqa.
Import ListNotations.

Local Open Scope string_scope.

(** ** Exceptions and the error monad *)

Inductive error : Type :=
| NameError
| TypeError
| IndexError
| AttributeError
| ZeroDivisionError
| ValueError
| IOError
| CvError.

Inductive result (A : Type) : Type :=
| Ok (a : A)
| Raise (e : error).

Arguments Ok {A} a.
Arguments Raise {A} e.

Definition bind {A B : Type} (m : result A) (k : A -> result B) : result B :=
  match m with
  | Ok a => k a
  | Raise e => Raise e
  end.

Notation "x <- m ;; k" := (bind m (fun x => k))
  (at level 61, m at next level, right associativity).

(** How a loop or a generator ends. *)
Inductive outcome : Type :=
| Finished
| Raised (e : error).

(** ** Python strings: slices, [rfind], [os.path.splitext] *)

Module PyStr.

(** [s[:n]] *)
Fixpoint take (n : nat) (s : string) : string :=
  match n, s with
  | O, _ => EmptyString
  | S _, EmptyString => EmptyString
  | S n', String c s' => String c (take n' s')
  end.

(** [s[n:]] *)
Fixpoint drop (n : nat) (s : string) : string :=
  match n, s with
  | O, _ => s
  | S _, EmptyString => EmptyString
  | S n', String _ s' => drop n' s'
  end.

(** [s.rfind(c)]; [None] stands for Python's [-1]. *)
Fixpoint rfind (c : ascii) (s : string) : option nat :=
  match s with
  | EmptyString => None
  | String a s' =>
      match rfind c s' with
      | Some i => Some (S i)
      | None => if Ascii.eqb a c then Some O else None
      end
  end.

(** Is some character of [s] different from [c]? *)
Fixpoint has_other (c : ascii) (s : string) : bool :=
  match s with
  | EmptyString => false
  | String a s' => negb (Ascii.eqb a c) || has_other c s'
  end.

(** [posixpath.splitext] ([genericpath._splitext] with [sep = '/'], no
    [altsep], [extsep = '.']): the extension starts at the last dot, when
    that dot lies after the last separator and some character between the
    separator and the dot is not a dot. *)
Definition splitext (p : string) : string * string :=
  let start := match rfind "/" p with Some i => S i | None => O end in
  match rfind "." p with
  | Some dotIndex =>
      if (start <=? dotIndex)%nat
         && has_other "." (take (dotIndex - start) (drop start p))
      then (take dotIndex p, drop dotIndex p)
      else (p, EmptyString)
  | None => (p, EmptyString)
  end.

(** [s.endswith(suffix)] *)
Definition endswith (s suffix : string) : bool :=
  String.eqb (drop (String.length s - String.length suffix) s) suffix.

(** [x in l] for a list of strings *)
Definition mem (x : string) (l : list string) : bool :=
  existsb (String.eqb x) l.

End PyStr.

(** ** Arrays on disk and the directory tree *)

(** A descriptor is a row of numbers; a saved array is a list of rows. *)
Definition vec := list Q.
Definition array := list vec.

Inductive content : Type :=
| Npy (a : array)      (* a file [numpy.load] can read *)
| Blob.                (* any other file *)

#[warnings="-register-all"]
Inductive node : Type :=
| File (c : content)
| Dir (entries : list (string * node)).

Definition is_dir (n : node) : bool :=
  match n with Dir _ => true | File _ => false end.

Definition dirnames (es : list (string * node)) : list string :=
  map fst (filter (fun e => is_dir (snd e)) es).

Definition filenames (es : list (string * node)) : list string :=
  map fst (filter (fun e => negb (is_dir (snd e))) es).

(** [posixpath.join(a, b)] *)
Definition join (a b : string) : string :=
  match b with
  | String "/" _ => b
  | _ => if String.eqb a "" || PyStr.endswith a "/" then a ++ b
         else a ++ "/" ++ b
  end.

(** [os.walk(top)], top-down: the triple of the directory itself, then the
    triples of each sub-directory in listing order.  A [top] that is not a
    directory yields nothing. *)
Fixpoint walk (top : string) (n : node) {struct n}
  : list (string * list string * list string) :=
  match n with
  | File _ => []
  | Dir es =>
      (top, dirnames es, filenames es) ::
      (fix sub (l : list (string * node)) :=
         match l with
         | [] => []
         | (name, child) :: l' => (walk (join top name) child ++ sub l')%list
         end) es
  end.

(** The names bound to [file] by
    [for root, dirs, files in os.walk(top): for file in files:], in order. *)
Definition walked_files (top : string) (n : node) : list string :=
  flat_map (fun t => snd t) (walk top n).

Fixpoint lookup (name : string) (es : list (string * node)) : option node :=
  match es with
  | [] => None
  | (k, v) :: es' => if String.eqb k name then Some v else lookup name es'
  end.

(** [numpy.load(os.path.join(folder, file))], where [n] is the tree of
    [folder]: [file] is looked up among the entries of [folder] itself. *)
Definition np_load (n : node) (file : string) : result array :=
  match n with
  | Dir es =>
      match lookup file es with
      | Some (File (Npy a)) => Ok a
      | _ => Raise IOError
      end
  | File _ => Raise IOError
  end.

(** [numpy.save(path, a)] writes to [path], with [.npy] appended unless the
    name has it already. *)
Definition np_save_name (path : string) : string :=
  if PyStr.endswith path ".npy" then path else path ++ ".npy".

(** ** Python numbers and names *)

Definition Qltb (x y : Q) : bool :=
  (Qnum x * QDen y <? Qnum y * QDen x)%Z.

(** [int(round(x))]: Python 2 rounds halves away from zero. *)
Definition py_round (x : Q) : Z :=
  if Qle_bool 0 x then Qfloor (x + (1 # 2))
  else (- Qfloor (- x + (1 # 2)))%Z.

(** [s[0]] *)
Definition py_index0 (s : string) : result ascii :=
  match s with
  | EmptyString => Raise IndexError
  | String c _ => Ok c
  end.

(** The names bound at module level: the three imports and the three
    classes. *)
Definition module_globals : list string :=
  ["cv2"; "os"; "np"; "ImageDescriptor"; "DatabaseBuilder"; "Matcher"].

(** Reading a name that is not a built-in: the function's own bindings
    first, then the module's; a name bound in neither raises [NameError].
    [locals] lists the string valued bindings of the function at that
    point; a module-level name is a module or a class, which is not a path
    ([TypeError] where one is used as such). *)
Fixpoint assoc (x : string) (env : list (string * string)) : option string :=
  match env with
  | [] => None
  | (k, v) :: env' => if String.eqb k x then Some v else assoc x env'
  end.

Definition py_name (locals : list (string * string)) (x : string)
  : result string :=
  match assoc x locals with
  | Some v => Ok v
  | None => if PyStr.mem x module_globals then Raise TypeError
            else Raise NameError
  end.

(** ** The OpenCV interface *)

Class Cv2 : Type := {
  image : Type;
  keypoint : Type;
  KNearest : Type;
  (** [img.shape[0]], [img.shape[1]]: rows and columns *)
  shape : image -> Z * Z;
  (** [cv2.imread(path)]: [None] when the file is missing or not an image *)
  imread : string -> option image;
  (** [cv2.resize(img, dsize)] *)
  resize : image -> Z * Z -> result image;
  (** [cv2.cvtColor(img, cv2.COLOR_BGR2GRAY)] *)
  cvtColor : image -> image;
  (** [cv2.DescriptorExtractor_create("SURF").compute(img, keypoints)] *)
  surf_compute : image -> list keypoint -> list keypoint * array;
  (** [knn = cv2.KNearest(); knn.train(samples, responses)] *)
  knn_train : array -> list Q -> result KNearest;
  (** [dists[0][0]] of [knn.find_nearest(des, 1)] *)
  knn_find_nearest : KNearest -> vec -> result Q
}.

(** Contracts of the library, each stated where a proof needs it. *)

(** [dsize] is (width, height); [shape] is (rows, columns). *)
Definition resize_contract (cv : Cv2) : Prop :=
  forall img w h img', resize img (w, h) = Ok img' -> shape img' = (h, w).

Definition cvtColor_contract (cv : Cv2) : Prop :=
  forall img, shape (cvtColor img) = shape img.


Section Program.

Context {cv : Cv2}.

(** ** class ImageDescriptor *)

Definition SUPPORTED_EXTS : list string :=
  [".bmp"; ".dib"; ".jpeg"; ".jpg"; ".jpe"; ".jp2"; ".png"; ".pbm"; ".pgm";
   ".ppm"; ".sr"; ".ras"; ".tiff"; ".tif"].

Record ImageDescriptor : Type := {
  size : Z;
  (** [surfExtractor.detect] *)
  surfExtractor : image -> list keypoint
}.

(** [factor] and [newsize] of [_load], for an image of shape [(h, w)]. *)
Definition factor (sz h w : Z) : Q :=
  inject_Z sz / inject_Z (Z.max h w).

Definition newsize (sz h w : Z) : Z * Z :=
  (py_round (inject_Z h * factor sz h w),
   py_round (inject_Z w * factor sz h w)).

Definition _load (self : ImageDescriptor) (path : string) : result image :=
  match imread path with
  | None => Raise AttributeError            (* [img.shape] of [None] *)
  | Some img =>
      let '(h, w) := shape img in
      if (Z.max h w =? 0)%Z then Raise ZeroDivisionError
      else
        img1 <- resize img (newsize (size self) h w) ;;
        Ok (cvtColor img1)
  end.

Definition getDescriptors (self : ImageDescriptor) (imgpath : string)
  : result array :=
  img <- _load self imgpath ;;
  let keypoints := surfExtractor self img in
  let '(_, descriptors) := surf_compute img keypoints in
  Ok descriptors.

(** ** class DatabaseBuilder *)

Record DatabaseBuilder : Type := {
  inputFolder : string;
  outputFolder : string;
  builder_imageDescriptor : ImageDescriptor
}.

(** The files [numpy.save] has written so far. *)
Definition saved := list (string * array).

(** The test [file[0] != '_' and ext in SUPPORTED_EXTS]. *)
Definition eligible (file ext : string) : result bool :=
  c <- py_index0 file ;;
  Ok (negb (Ascii.eqb c "_") && PyStr.mem ext SUPPORTED_EXTS).

(** The body of the inner loop of [build] for one [file]. *)
Definition build_file (self : DatabaseBuilder) (root file : string)
    (out : saved) : result saved :=
  let ext := snd (PyStr.splitext file) in
  ok <- eligible file ext ;;
  if ok : bool then
    let inPath := join (inputFolder self) file in
    let locals := [("root", root); ("file", file); ("ext", ext);
                   ("inPath", inPath)] in
    path <- py_name locals "path" ;;
    descriptors <- getDescriptors (builder_imageDescriptor self) path ;;
    let outPath := join (outputFolder self) file in
    path' <- py_name (("outPath", outPath) :: locals) "path" ;;
    Ok (out ++ [(np_save_name path', descriptors)])%list
  else Ok out.

Fixpoint build_files (self : DatabaseBuilder) (root : string)
    (files : list string) (out : saved) : saved * outcome :=
  match files with
  | [] => (out, Finished)
  | file :: rest =>
      match build_file self root file out with
      | Ok out' => build_files self root rest out'
      | Raise e => (out, Raised e)
      end
  end.

Fixpoint build_walk (self : DatabaseBuilder)
    (triples : list (string * list string * list string)) (out : saved)
  : saved * outcome :=
  match triples with
  | [] => (out, Finished)
  | (root, _, files) :: rest =>
      match build_files self root files out with
      | (out', Finished) => build_walk self rest out'
      | r => r
      end
  end.

(** [build], run on the tree [input] found at [inputFolder]: what was
    saved, and how the call ended. *)
Definition build (self : DatabaseBuilder) (input : node) : saved * outcome :=
  build_walk self (walk (inputFolder self) input) [].

(** ** class Matcher *)

Record Matcher : Type := {
  dbfolder : string;
  imageDescriptor : ImageDescriptor;
  distanceThreshold : Q
}.

(** [np.arange(n, dtype = np.float32)] *)
Definition arange (n : nat) : list Q :=
  map (fun i => inject_Z (Z.of_nat i)) (seq 0 n).

Definition _getKnn (self : Matcher) (descriptors : array) : result KNearest :=
  let samples := descriptors in
  let responses := arange (List.length descriptors) in
  knn_train samples responses.

(** [np.array(des, np.float32).reshape((1,128))] *)
Definition reshape_1_128 (des : vec) : result vec :=
  if (List.length des =? 128)%nat then Ok des else Raise ValueError.

(** The loop of [_match], started from the score accumulated so far. *)
Fixpoint _match_from (self : Matcher) (knn : KNearest) (descriptors : array)
    (score : Q) : result Q :=
  match descriptors with
  | [] => Ok score
  | des :: rest =>
      des1 <- reshape_1_128 des ;;
      dist <- knn_find_nearest knn des1 ;;
      _match_from self knn rest
        (if Qltb dist (distanceThreshold self)
         then score + (distanceThreshold self - dist)
         else score)
  end.

Definition _match (self : Matcher) (knn : KNearest) (descriptors : array)
  : result Q :=
  _match_from self knn descriptors 0.

(** What a consumer of the generator sees: the pairs yielded, in order, and
    how the iteration ended. *)
Definition trace := (list (string * Q) * outcome)%type.

Definition yield (p : string * Q) (t : trace) : trace :=
  (p :: fst t, snd t).

Fixpoint match_files (self : Matcher) (knn : KNearest) (db : node)
    (files : list string) : trace :=
  match files with
  | [] => ([], Finished)
  | file :: rest =>
      let ext := snd (PyStr.splitext file) in
      if String.eqb ext ".npy" then
        match np_load db file with
        | Raise e => ([], Raised e)
        | Ok dbfile =>
            match _match self knn dbfile with
            | Raise e => ([], Raised e)
            | Ok score => yield (file, score) (match_files self knn db rest)
            end
        end
      else match_files self knn db rest
  end.

(** [match], run on the tree [db] found at [dbfolder]. *)
Definition match_ (self : Matcher) (db : node) (imgpath : string) : trace :=
  match getDescriptors (imageDescriptor self) imgpath with
  | Raise e => ([], Raised e)
  | Ok descriptors =>
      match _getKnn self descriptors with
      | Raise e => ([], Raised e)
      | Ok knn => match_files self knn db (walked_files (dbfolder self) db)
      end
  end.

End Program.

Arguments ImageDescriptor {cv}.
Arguments DatabaseBuilder {cv}.
Arguments Matcher {cv}.

(** ** A small OpenCV to run the program with

    Images carry their shape and the descriptor rows a detector finds in
    them; the nearest neighbour search is exhaustive, with the sum of squared
    differences as distance. *)

Module Toy.

Record timage : Type := {
  rows : Z;
  cols : Z;
  found : array
}.

Definition sqdist (u v : vec) : Q :=
  fold_right Qplus 0 (map (fun p => (fst p - snd p) * (fst p - snd p))
                          (combine u v)).

Definition Qmin' (x y : Q) : Q := if Qltb y x then y else x.

Definition nearest (samples : array) (v : vec) : result Q :=
  match samples with
  | [] => Raise CvError
  | s :: rest => Ok (fold_left (fun m t => Qmin' m (sqdist t v)) rest
                               (sqdist s v))
  end.

(** A descriptor of 128 numbers: [x], [y], then zeros. *)
Definition des (x y : Q) : vec := x :: y :: repeat 0 126.

Definition query_png : timage :=
  {| rows := 100; cols := 200; found := [des 0 0; des 1 0] |}.

Definition blank_png : timage :=
  {| rows := 50; cols := 50; found := [] |}.

Definition disk (path : string) : option timage :=
  if String.eqb path "query.png" then Some query_png
  else if String.eqb path "blank.png" then Some blank_png
  else None.

#[export] Instance cv : Cv2 := {|
  image := timage;
  keypoint := vec;
  KNearest := array;
  shape := fun img => (rows img, cols img);
  imread := disk;
  resize := fun img dsize =>
    if (0 <? fst dsize)%Z && (0 <? snd dsize)%Z
    then Ok {| rows := snd dsize; cols := fst dsize; found := found img |}
    else Raise CvError;
  cvtColor := fun img => img;
  surf_compute := fun _ kps => (kps, kps);
  knn_train := fun samples _ =>
    match samples with [] => Raise CvError | _ => Ok samples end;
  knn_find_nearest := nearest
|}.

Definition descriptor : ImageDescriptor :=
  {| size := 300; surfExtractor := found |}.

Definition matcher (thr : Q) : Matcher :=
  {| dbfolder := "db"; imageDescriptor := descriptor;
     distanceThreshold := thr |}.

Definition builder : DatabaseBuilder :=
  {| inputFolder := "in"; outputFolder := "db";
     builder_imageDescriptor := descriptor |}.

(** A catalog: two arrays, one of them under an underscore name, a file
    that is not an array, and a sub-directory. *)
Definition db : node :=
  Dir [("a.png.npy", File (Npy [des 0 (1 # 10); des 1 0; des 5 5]));
       ("notes.txt", File Blob);
       ("_b.png.npy", File (Npy [des (1 # 2) 0]));
       ("sub", Dir [("readme", File Blob)])].

(** A catalog whose first array cannot be read. *)
Definition db_broken : node :=
  Dir [("a.png.npy", File (Npy [des 0 0]));
       ("b.png.npy", File Blob);
       ("c.png.npy", File (Npy [des 1 0]))].

Definition pictures : node :=
  Dir [("a.png", File Blob); ("b.png", File Blob);
       ("_skip.png", File Blob); ("c.txt", File Blob)].

End Toy.


(** * Properties *)

(** ** The score of one catalog entry *)

(** The sum the specification describes: [threshold - dist] over the
    distances below the threshold, nothing for the others. *)
Definition gated_sum (threshold : Q) (dists : list Q) : Q :=
  fold_right Qplus 0
    (map (fun d => threshold - d) (filter (fun d => Qltb d threshold) dists)).

Lemma Qltb_lt (x y : Q) : Qltb x y = true <-> x < y.
Proof. unfold Qltb, Qlt. apply Z.ltb_lt. Qed.

Lemma Qltb_ge (x y : Q) : Qltb x y = false <-> y <= x.
Proof. unfold Qltb, Qle. rewrite Z.ltb_ge. reflexivity. Qed.

Lemma gated_sum_cons (t d : Q) (ds : list Q) :
  gated_sum t (d :: ds)
  == (if Qltb d t then t - d else 0) + gated_sum t ds.
Proof.
  unfold gated_sum. simpl. destruct (Qltb d t); simpl; ring.
Qed.

Lemma gated_sum_nonneg (t : Q) (ds : list Q) : 0 <= gated_sum t ds.
Proof.
  induction ds as [|d ds IH].
  - unfold gated_sum. simpl. lra.
  - rewrite gated_sum_cons. destruct (Qltb d t) eqn:E.
    + apply Qltb_lt in E. lra.
    + lra.
Qed.

Section Scoring.

Context {cv : Cv2}.

(** [d] is what the index [knn] answers for the row [v] of a catalog entry. *)
Definition nearest_dist (knn : KNearest) (v : vec) (d : Q) : Prop :=
  List.length v = 128%nat /\ knn_find_nearest knn v = Ok d.

Lemma reshape_ok (v : vec) :
  List.length v = 128%nat -> reshape_1_128 v = Ok v.
Proof. intros H. unfold reshape_1_128. rewrite H. reflexivity. Qed.

Lemma reshape_inv (v w : vec) :
  reshape_1_128 v = Ok w -> w = v /\ List.length v = 128%nat.
Proof.
  unfold reshape_1_128. destruct (Nat.eqb_spec (List.length v) 128).
  - intros [= <-]. auto.
  - discriminate.
Qed.

Lemma _match_from_sum (self : Matcher) (knn : KNearest) (D : array)
    (dists : list Q) :
  Forall2 (nearest_dist knn) D dists ->
  forall acc, exists score,
    _match_from self knn D acc = Ok score
    /\ score == acc + gated_sum (distanceThreshold self) dists.
Proof.
  induction 1 as [|v d D ds [Hlen Hd] _ IH]; intros acc.
  - exists acc. split; [reflexivity|]. unfold gated_sum. simpl. ring.
  - simpl. rewrite (reshape_ok _ Hlen). simpl. rewrite Hd. simpl.
    destruct (IH (if Qltb d (distanceThreshold self)
                  then acc + (distanceThreshold self - d) else acc))
      as (s & Hs & Heq).
    exists s. split; [exact Hs|]. rewrite Heq, gated_sum_cons.
    destruct (Qltb d (distanceThreshold self)); ring.
Qed.

Lemma _match_from_inv (self : Matcher) (knn : KNearest) (D : array) :
  forall acc score,
    _match_from self knn D acc = Ok score ->
    exists dists,
      Forall2 (nearest_dist knn) D dists
      /\ score == acc + gated_sum (distanceThreshold self) dists.
Proof.
  induction D as [|v D IH]; intros acc score H.
  - simpl in H. injection H as <-. exists []. split; [constructor|].
    unfold gated_sum. simpl. ring.
  - simpl in H. destruct (reshape_1_128 v) as [w|] eqn:Hr; [|discriminate].
    apply reshape_inv in Hr. destruct Hr as [-> Hlen]. simpl in H.
    destruct (knn_find_nearest knn v) as [d|] eqn:Hd; [|discriminate].
    simpl in H. apply IH in H. destruct H as (ds & HF & Heq).
    exists (d :: ds). split.
    + constructor; [split; assumption|exact HF].
    + rewrite Heq, gated_sum_cons.
      destruct (Qltb d (distanceThreshold self)); ring.
Qed.

(** ** What the generator yields *)

Lemma match_files_yielded (self : Matcher) (knn : KNearest) (db : node)
    (files : list string) (file : string) (score : Q) :
  In (file, score) (fst (match_files self knn db files)) ->
  In file files
  /\ snd (PyStr.splitext file) = ".npy"
  /\ exists D, np_load db file = Ok D /\ _match self knn D = Ok score.
Proof.
  induction files as [|f rest IH]; simpl; [tauto|].
  destruct (String.eqb_spec (snd (PyStr.splitext f)) ".npy") as [He|He].
  - destruct (np_load db f) as [D|e] eqn:Hl; [|simpl; tauto].
    destruct (_match self knn D) as [s|e] eqn:Hm; [|simpl; tauto].
    simpl. intros [Heq|Hin].
    + injection Heq as <- <-. split; [auto|]. split; [exact He|].
      exists D. auto.
    + destruct (IH Hin) as (H1 & H2 & H3). auto.
  - intros Hin. destruct (IH Hin) as (H1 & H2 & H3). auto.
Qed.

Lemma match_yielded (self : Matcher) (db : node) (imgpath file : string)
    (score : Q) :
  In (file, score) (fst (match_ self db imgpath)) ->
  exists query knn,
    getDescriptors (imageDescriptor self) imgpath = Ok query
    /\ knn_train query (arange (List.length query)) = Ok knn
    /\ In (file, score)
          (fst (match_files self knn db (walked_files (dbfolder self) db))).
Proof.
  unfold match_, _getKnn.
  destruct (getDescriptors (imageDescriptor self) imgpath) as [q|e];
    [|simpl; tauto].
  destruct (knn_train q (arange (List.length q))) as [knn|e] eqn:Hk;
    [|simpl; tauto].
  intros H. exists q, knn. auto.
Qed.

End Scoring.

Definition with_threshold {cv : Cv2} (self : Matcher) (t : Q) : Matcher :=
  {| dbfolder := dbfolder self;
     imageDescriptor := imageDescriptor self;
     distanceThreshold := t |}.

Section Threshold.

Context {cv : Cv2}.

(** The threshold decides what is added, never whether [_match] raises. *)
Definition same_ending {A B : Type} (r : result A) (r' : result B) : Prop :=
  match r, r' with
  | Ok _, Ok _ => True
  | Raise e, Raise e' => e = e'
  | _, _ => False
  end.

Lemma _match_from_same_ending (self self' : Matcher) (knn : KNearest)
    (D : array) :
  forall acc acc',
    same_ending (_match_from self knn D acc) (_match_from self' knn D acc').
Proof.
  induction D as [|v D IH]; intros acc acc'; simpl; [exact I|].
  destruct (reshape_1_128 v) as [w|e]; simpl; [|reflexivity].
  destruct (knn_find_nearest knn w) as [d|e]; simpl; [|reflexivity].
  apply IH.
Qed.



End Threshold.

(** ** Claims about the score *)

(** C1. Every score that [match] yields for a catalog file is the sum of
    [distanceThreshold - dist] over those rows of the file's array whose
    nearest neighbour distance [dist] in the index of the query lies below
    the threshold; the other rows add nothing.  And [_match] does return
    that sum for every array whose rows the index answers. *)
Theorem match_score_is_gated_sum (cv : Cv2) (self : Matcher) (db : node)
    (imgpath : string) :
  (forall file score,
      In (file, score) (fst (match_ self db imgpath)) ->
      exists query knn D dists,
        getDescriptors (imageDescriptor self) imgpath = Ok query
        /\ knn_train query (arange (List.length query)) = Ok knn
        /\ np_load db file = Ok D
        /\ Forall2 (nearest_dist knn) D dists
        /\ score == gated_sum (distanceThreshold self) dists)
  /\ (forall knn D dists,
         Forall2 (nearest_dist knn) D dists ->
         exists score,
           _match self knn D = Ok score
           /\ score == gated_sum (distanceThreshold self) dists).
Proof.
  split.
  - intros file score H.
    destruct (match_yielded _ _ _ _ _ H) as (q & knn & Hq & Hk & Hin).
    destruct (match_files_yielded _ _ _ _ _ _ Hin) as (_ & _ & D & Hl & Hm).
    destruct (_match_from_inv _ _ _ _ _ Hm) as (ds & HF & Heq).
    exists q, knn, D, ds. repeat split; try assumption.
    rewrite Heq. ring.
  - intros knn D ds HF.
    destruct (_match_from_sum self knn D ds HF 0) as (s & Hs & Heq).
    exists s. split; [exact Hs|]. rewrite Heq. ring.
Qed.

(** C9. Every score that [match] yields is at least 0. *)
Theorem match_score_nonneg (cv : Cv2) (self : Matcher) (db : node)
    (imgpath file : string) (score : Q) :
  In (file, score) (fst (match_ self db imgpath)) -> 0 <= score.
Proof.
  intros H.
  destruct (match_yielded _ _ _ _ _ H) as (q & knn & _ & _ & Hin).
  destruct (match_files_yielded _ _ _ _ _ _ Hin) as (_ & _ & D & _ & Hm).
  destruct (_match_from_inv _ _ _ _ _ Hm) as (ds & _ & Heq).
  rewrite Heq. pose proof (gated_sum_nonneg (distanceThreshold self) ds).
  lra.
Qed.


(** The small OpenCV keeps the contracts. *)




Lemma toy_resize_contract : resize_contract Toy.cv.
Proof.
  intros img w h img'. simpl.
  destruct ((0 <? w)%Z && (0 <? h)%Z); [|discriminate].
  intros [= <-]. reflexivity.
Qed.

Lemma toy_cvtColor_contract : cvtColor_contract Toy.cv.
Proof. intros img. reflexivity. Qed.

Lemma match_score_is_gated_sum_witness :
  In ("a.png.npy", 199 # 100) (fst (match_ (Toy.matcher 1) Toy.db "query.png"))
  /\ exists query knn D dists,
       getDescriptors Toy.descriptor "query.png" = Ok query
       /\ @knn_train Toy.cv query (arange (List.length query)) = Ok knn
       /\ np_load Toy.db "a.png.npy" = Ok D
       /\ Forall2 (@nearest_dist Toy.cv knn) D dists
       /\ 199 # 100 == gated_sum 1 dists.
Proof.
  split.
  - vm_compute. left. reflexivity.
  - apply (proj1 (match_score_is_gated_sum Toy.cv (Toy.matcher 1) Toy.db
                    "query.png") "a.png.npy" (199 # 100)).
    vm_compute. left. reflexivity.
Defined.

Lemma match_score_nonneg_witness :
  In ("_b.png.npy", 3 # 4) (fst (match_ (Toy.matcher 1) Toy.db "query.png"))
  /\ 0 <= 3 # 4.
Proof.
  assert (H : In ("_b.png.npy", 3 # 4)
                 (fst (match_ (Toy.matcher 1) Toy.db "query.png"))).
  { vm_compute. right. left. reflexivity. }
  split; [exact H|].
  exact (match_score_nonneg Toy.cv (Toy.matcher 1) Toy.db "query.png"
           "_b.png.npy" (3 # 4) H).
Defined.


(** ** Facts about slices and [splitext] *)

Lemma drop_length (n : nat) (s : string) :
  String.length (PyStr.drop n s) = (String.length s - n)%nat.
Proof.
  revert s. induction n as [|n IH]; intros [|c s]; simpl; auto.
Qed.

Lemma drop_all (n : nat) (s : string) :
  (String.length s <= n)%nat -> PyStr.drop n s = "".
Proof.
  revert s. induction n as [|n IH]; intros [|c s]; simpl; intros H;
    try reflexivity; try lia.
  apply IH. lia.
Qed.

Lemma take_drop (n : nat) (s : string) :
  PyStr.take n s ++ PyStr.drop n s = s.
Proof.
  revert s. induction n as [|n IH]; intros [|c s]; simpl; try reflexivity.
  rewrite IH. reflexivity.
Qed.

Lemma endswith_drop (n : nat) (s : string) :
  PyStr.endswith s (PyStr.drop n s) = true.
Proof.
  unfold PyStr.endswith. apply String.eqb_eq. rewrite drop_length.
  destruct (Nat.le_gt_cases n (String.length s)) as [H|H].
  - replace (String.length s - (String.length s - n))%nat with n by lia.
    reflexivity.
  - rewrite (drop_all n) by lia. apply drop_all. lia.
Qed.

Lemma endswith_empty (s : string) : PyStr.endswith s "" = true.
Proof.
  unfold PyStr.endswith. apply String.eqb_eq. apply drop_all. simpl. lia.
Qed.

(** The two halves [splitext] returns make up the name again. *)
Lemma splitext_append (p : string) :
  fst (PyStr.splitext p) ++ snd (PyStr.splitext p) = p.
Proof.
  unfold PyStr.splitext.
  destruct (PyStr.rfind "." p) as [i|]; simpl.
  - match goal with |- context [if ?b then _ else _] => destruct b end;
      simpl; [apply take_drop|].
    clear. induction p as [|c p IH]; simpl; congruence.
  - clear. induction p as [|c p IH]; simpl; congruence.
Qed.

Lemma splitext_endswith (p : string) :
  PyStr.endswith p (snd (PyStr.splitext p)) = true.
Proof.
  unfold PyStr.splitext.
  destruct (PyStr.rfind "." p) as [i|]; simpl.
  - match goal with |- context [if ?b then _ else _] => destruct b end;
      simpl; [apply endswith_drop|apply endswith_empty].
  - apply endswith_empty.
Qed.

(** ** The sequence of yielded pairs *)

Section Generator.

Context {cv : Cv2}.

Definition is_npy (file : string) : bool :=
  String.eqb (snd (PyStr.splitext file)) ".npy".

Lemma match_files_app (self : Matcher) (knn : KNearest) (db : node)
    (pre rest : list string) :
  match_files self knn db (pre ++ rest)
  = match snd (match_files self knn db pre) with
    | Finished =>
        ((fst (match_files self knn db pre)
          ++ fst (match_files self knn db rest))%list,
         snd (match_files self knn db rest))
    | Raised e => match_files self knn db pre
    end.
Proof.
  induction pre as [|f pre IH]; simpl.
  - destruct (match_files self knn db rest); reflexivity.
  - destruct (String.eqb (snd (PyStr.splitext f)) ".npy"); [|exact IH].
    destruct (np_load db f) as [D|e]; [|reflexivity].
    destruct (_match self knn D) as [s|e]; [|reflexivity].
    unfold yield. rewrite IH.
    destruct (match_files self knn db pre) as [l o]. simpl.
    destruct o; reflexivity.
Qed.

Lemma match_files_finished (self : Matcher) (knn : KNearest) (db : node)
    (files : list string) :
  snd (match_files self knn db files) = Finished ->
  map fst (fst (match_files self knn db files)) = filter is_npy files.
Proof.
  induction files as [|f rest IH]; simpl; [reflexivity|].
  unfold is_npy at 1.
  destruct (String.eqb (snd (PyStr.splitext f)) ".npy"); [|exact IH].
  destruct (np_load db f) as [D|e]; [|discriminate].
  destruct (_match self knn D) as [s|e]; [|discriminate].
  simpl. intros H. rewrite (IH H). reflexivity.
Qed.

Lemma match_finished (self : Matcher) (db : node) (imgpath : string) :
  snd (match_ self db imgpath) = Finished ->
  map fst (fst (match_ self db imgpath))
  = filter is_npy (walked_files (dbfolder self) db).
Proof.
  unfold match_.
  destruct (getDescriptors (imageDescriptor self) imgpath) as [q|e];
    [|discriminate].
  destruct (_getKnn self q) as [knn|e]; [|discriminate].
  apply match_files_finished.
Qed.

End Generator.



(** The direction matters: one catalog row between two query rows scores
    once against the index of the query, and would score twice if the
    query rows were asked against an index of the catalog row. *)
Example direction_matters :
  exists a b,
    _match (Toy.matcher 1) [Toy.des 0 0; Toy.des 1 0] [Toy.des (1 # 2) 0]
    = Ok a
    /\ _match (Toy.matcher 1) [Toy.des (1 # 2) 0] [Toy.des 0 0; Toy.des 1 0]
       = Ok b
    /\ a == 3 # 4 /\ b == 3 # 2.
Proof.
  exists (3 # 4), (24 # 16). repeat split; vm_compute; reflexivity.
Qed.

(** C10. [match] chooses the files to score by the [.npy] extension alone:
    every yielded name is a walked file with that extension, written as it
    is stored, suffix included; a run that finishes yields exactly the
    walked files with that extension, in order, so a name that starts with
    an underscore is scored like any other. *)
Theorem match_selects_by_npy_extension (cv : Cv2) (self : Matcher)
    (db : node) (imgpath : string) :
  (forall file score,
      In (file, score) (fst (match_ self db imgpath)) ->
      In file (walked_files (dbfolder self) db)
      /\ snd (PyStr.splitext file) = ".npy"
      /\ PyStr.endswith file ".npy" = true)
  /\ (snd (match_ self db imgpath) = Finished ->
      map fst (fst (match_ self db imgpath))
      = filter is_npy (walked_files (dbfolder self) db))
  /\ (snd (match_ self db imgpath) = Finished ->
      forall rest,
        In (String "_" rest) (walked_files (dbfolder self) db) ->
        snd (PyStr.splitext (String "_" rest)) = ".npy" ->
        In (String "_" rest) (map fst (fst (match_ self db imgpath)))).
Proof.
  split; [|split].
  - intros file score H.
    destruct (match_yielded _ _ _ _ _ H) as (q & knn & _ & _ & Hin).
    destruct (match_files_yielded _ _ _ _ _ _ Hin) as (H1 & H2 & _).
    split; [exact H1|]. split; [exact H2|].
    rewrite <- H2. apply splitext_endswith.
  - apply match_finished.
  - intros Hfin rest Hin Hext. rewrite (match_finished _ _ _ Hfin).
    apply filter_In. split; [exact Hin|].
    unfold is_npy. rewrite Hext. reflexivity.
Qed.

Lemma match_selects_by_npy_extension_witness :
  snd (match_ (Toy.matcher 1) Toy.db "query.png") = Finished
  /\ In "_b.png.npy" (walked_files "db" Toy.db)
  /\ snd (PyStr.splitext "_b.png.npy") = ".npy"
  /\ In "_b.png.npy" (map fst (fst (match_ (Toy.matcher 1) Toy.db "query.png")))
  /\ map fst (fst (match_ (Toy.matcher 1) Toy.db "query.png"))
     = filter is_npy (walked_files "db" Toy.db)
  /\ PyStr.endswith "a.png.npy" ".npy" = true.
Proof.
  pose proof (match_selects_by_npy_extension Toy.cv (Toy.matcher 1) Toy.db
                "query.png") as (H1 & H2 & H3).
  assert (Hfin : snd (match_ (Toy.matcher 1) Toy.db "query.png") = Finished)
    by reflexivity.
  assert (Hin : In "_b.png.npy" (walked_files "db" Toy.db))
    by (vm_compute; right; right; left; reflexivity).
  assert (Hy : In ("a.png.npy", 199 # 100)
                  (fst (match_ (Toy.matcher 1) Toy.db "query.png")))
    by (vm_compute; left; reflexivity).
  split; [exact Hfin|]. split; [exact Hin|]. split; [reflexivity|].
  split; [exact (H3 Hfin "b.png.npy" Hin eq_refl)|].
  split; [exact (H2 Hfin)|].
  exact (proj2 (proj2 (H1 "a.png.npy" (199 # 100) Hy))).
Defined.

(** ** Unreadable catalog files *)

(** The reading of the specification: a catalog file that can be read is
    scored, whatever the other files are. *)
Definition skips_unreadable {cv : Cv2} (self : Matcher) (db : node)
    (imgpath : string) : Prop :=
  forall file D,
    In file (walked_files (dbfolder self) db) ->
    is_npy file = true ->
    np_load db file = Ok D ->
    In file (map fst (fst (match_ self db imgpath))).

(** C7, as stated, fails: in a catalog whose second file cannot be read,
    the first file is scored, then [IOError] ends the iteration, and the
    third file, which can be read, is never scored. *)
Lemma unreadable_entry_aborts :
  match_ (Toy.matcher 1) Toy.db_broken "query.png"
  = ([("a.png.npy", 1)], Raised IOError)
  /\ ~ skips_unreadable (Toy.matcher 1) Toy.db_broken "query.png".
Proof.
  split; [vm_compute; reflexivity|].
  intros H. specialize (H "c.png.npy" [Toy.des 1 0]).
  assert (Hin : In "c.png.npy"
                   (map fst (fst (match_ (Toy.matcher 1) Toy.db_broken
                                    "query.png")))).
  { apply H; [vm_compute; auto|reflexivity|reflexivity]. }
  vm_compute in Hin. destruct Hin as [Hin|[]]. discriminate.
Qed.

(** C7, amended. An error reading a catalog file ends the iteration with
    that error: the pairs of the files walked before it have been yielded,
    and no file after it is scored. *)
Theorem match_stops_at_unreadable (cv : Cv2) (self : Matcher) (db : node)
    (imgpath : string) (query : array) (knn : KNearest)
    (pre post : list string) (file : string) (e : error) :
  getDescriptors (imageDescriptor self) imgpath = Ok query ->
  knn_train query (arange (List.length query)) = Ok knn ->
  walked_files (dbfolder self) db = (pre ++ file :: post)%list ->
  snd (match_files self knn db pre) = Finished ->
  snd (PyStr.splitext file) = ".npy" ->
  np_load db file = Raise e ->
  match_ self db imgpath = (fst (match_files self knn db pre), Raised e)
  /\ map fst (fst (match_ self db imgpath)) = filter is_npy pre.
Proof.
  intros Hq Hk Hw Hpre Hext Hload.
  assert (E : match_ self db imgpath
              = (fst (match_files self knn db pre), Raised e)).
  { unfold match_, _getKnn. rewrite Hq, Hk, Hw, match_files_app, Hpre.
    simpl. rewrite Hext, Hload. simpl. rewrite app_nil_r. reflexivity. }
  split; [exact E|]. rewrite E. simpl.
  apply match_files_finished. exact Hpre.
Qed.

Lemma match_stops_at_unreadable_witness :
  match_ (Toy.matcher 1) Toy.db_broken "query.png"
  = (fst (match_files (Toy.matcher 1) [Toy.des 0 0; Toy.des 1 0]
            Toy.db_broken ["a.png.npy"]), Raised IOError)
  /\ map fst (fst (match_ (Toy.matcher 1) Toy.db_broken "query.png"))
     = filter is_npy ["a.png.npy"].
Proof.
  apply (match_stops_at_unreadable Toy.cv (Toy.matcher 1) Toy.db_broken
           "query.png" [Toy.des 0 0; Toy.des 1 0] [Toy.des 0 0; Toy.des 1 0]
           ["a.png.npy"] ["c.png.npy"] "b.png.npy" IOError);
    reflexivity.
Defined.

(** ** [build] *)

Section Build.

Context {cv : Cv2}.

(** One file either is passed over, or stops the run before anything is
    read or saved. *)
Lemma build_file_cases (self : DatabaseBuilder) (root file : string)
    (out : saved) :
  build_file self root file out
  = match eligible file (snd (PyStr.splitext file)) with
    | Ok true => Raise NameError
    | Ok false => Ok out
    | Raise e => Raise e
    end.
Proof.
  unfold build_file.
  destruct (eligible file (snd (PyStr.splitext file))) as [[|]|e];
    reflexivity.
Qed.

Lemma build_files_saves_nothing (self : DatabaseBuilder) (root : string)
    (files : list string) (out : saved) :
  fst (build_files self root files out) = out.
Proof.
  induction files as [|f rest IH]; simpl; [reflexivity|].
  rewrite build_file_cases.
  destruct (eligible f (snd (PyStr.splitext f))) as [[|]|e];
    simpl; auto.
Qed.

Lemma build_walk_saves_nothing (self : DatabaseBuilder)
    (triples : list (string * list string * list string)) (out : saved) :
  fst (build_walk self triples out) = out.
Proof.
  revert out. induction triples as [|[[root dirs] files] rest IH];
    intros out; simpl; [reflexivity|].
  pose proof (build_files_saves_nothing self root files out) as H.
  destruct (build_files self root files out) as [out' [|e]]; simpl in *.
  - rewrite IH. exact H.
  - exact H.
Qed.

End Build.

(** The directory of the scenario. *)
Definition scenario_dir : node :=
  Dir [("a.png", File Blob); ("b.png", File Blob);
       ("_skip.png", File Blob); ("c.txt", File Blob)].

(** C3. On the directory with [a.png], [b.png], [_skip.png] and [c.txt] the
    test of [build] picks [a.png] and [b.png] and passes over the other two,
    as the specification says; but the body then reads the unbound name
    [path], so the run ends with [NameError] at [a.png] and nothing is
    saved.  No run of [build] saves anything. *)
Theorem build_raises_NameError (cv : Cv2) (self : DatabaseBuilder) :
  map (fun file => eligible file (snd (PyStr.splitext file)))
      (walked_files (inputFolder self) scenario_dir)
  = [Ok true; Ok true; Ok false; Ok false]
  /\ walked_files (inputFolder self) scenario_dir
     = ["a.png"; "b.png"; "_skip.png"; "c.txt"]
  /\ build self scenario_dir = ([], Raised NameError)
  /\ forall input, fst (build self input) = [].
Proof.
  split; [reflexivity|]. split; [reflexivity|]. split; [reflexivity|].
  intros input. apply build_walk_saves_nothing.
Qed.

(** ** Rounding and the new size *)

Lemma Qfloor_half_Z (z : Z) : Qfloor (inject_Z z + (1 # 2)) = z.
Proof.
  pose proof (Qfloor_le (inject_Z z + (1 # 2))) as H1.
  pose proof (Qlt_floor (inject_Z z + (1 # 2))) as H2.
  set (f := Qfloor (inject_Z z + (1 # 2))) in *.
  unfold Qle, Qlt in *. simpl in *. lia.
Qed.

Lemma py_round_nonneg (x : Q) :
  0 <= x -> py_round x = Qfloor (x + (1 # 2)).
Proof.
  intros H. unfold py_round. apply Qle_bool_iff in H. rewrite H. reflexivity.
Qed.

Lemma py_round_comp (x y : Q) : x == y -> py_round x = py_round y.
Proof.
  intros E. unfold py_round.
  rewrite (Qleb_comp 0 0 (Qeq_refl 0) x y E).
  destruct (Qle_bool 0 y).
  - apply Qfloor_comp. rewrite E. reflexivity.
  - f_equal. apply Qfloor_comp. rewrite E. reflexivity.
Qed.

Lemma py_round_Z (z : Z) : (0 <= z)%Z -> py_round (inject_Z z) = z.
Proof.
  intros H. rewrite py_round_nonneg.
  - apply Qfloor_half_Z.
  - rewrite Zle_Qle in H. exact H.
Qed.

Lemma py_round_le (x y : Q) :
  0 <= x -> x <= y -> (py_round x <= py_round y)%Z.
Proof.
  intros Hx Hxy. rewrite !py_round_nonneg by lra.
  apply Qfloor_resp_le. lra.
Qed.

(** [int(round(x))] is within one half of [x]. *)
Lemma py_round_close (x : Q) : Qabs (inject_Z (py_round x) - x) <= 1 # 2.
Proof.
  apply Qabs_Qle_condition. unfold py_round.
  destruct (Qle_bool 0 x).
  - pose proof (Qfloor_le (x + (1 # 2))) as H1.
    pose proof (Qlt_floor (x + (1 # 2))) as H2.
    rewrite inject_Z_plus in H2.
    set (f := inject_Z (Qfloor (x + (1 # 2)))) in *.
    change (inject_Z 1) with 1 in H2. split; lra.
  - pose proof (Qfloor_le (- x + (1 # 2))) as H1.
    pose proof (Qlt_floor (- x + (1 # 2))) as H2.
    rewrite inject_Z_plus in H2. rewrite inject_Z_opp.
    set (f := inject_Z (Qfloor (- x + (1 # 2)))) in *.
    change (inject_Z 1) with 1 in H2. split; lra.
Qed.

(** A side that is the maximum becomes [sz]; the other side becomes at
    most [sz]. *)
Lemma scaled_max (sz m : Z) :
  (0 <= sz)%Z -> (0 < m)%Z ->
  py_round (inject_Z m * (inject_Z sz / inject_Z m)) = sz.
Proof.
  intros Hsz Hm.
  assert (Hq : ~ inject_Z m == 0).
  { intros H. apply (inject_Z_injective m 0) in H. lia. }
  assert (E : inject_Z m * (inject_Z sz / inject_Z m) == inject_Z sz)
    by (field; exact Hq).
  rewrite (py_round_comp _ _ E). apply (py_round_Z sz Hsz).
Qed.

Lemma scaled_other (sz k m : Z) :
  (0 <= sz)%Z -> (0 <= k <= m)%Z -> (0 < m)%Z ->
  (0 <= py_round (inject_Z k * (inject_Z sz / inject_Z m)) <= sz)%Z.
Proof.
  intros Hsz Hk Hm.
  assert (Hm' : inject_Z 0 < inject_Z m) by (rewrite <- Zlt_Qlt; exact Hm).
  change (inject_Z 0) with 0 in Hm'.
  assert (Hq : ~ inject_Z m == 0) by lra.
  assert (E : inject_Z k * (inject_Z sz / inject_Z m)
              == inject_Z (k * sz) / inject_Z m)
    by (rewrite inject_Z_mult; field; exact Hq).
  assert (Hlo : 0 <= inject_Z k * (inject_Z sz / inject_Z m)).
  { rewrite E. apply Qle_shift_div_l; [exact Hm'|].
    rewrite Qmult_0_l. change 0 with (inject_Z 0). rewrite <- Zle_Qle.
    nia. }
  assert (Hhi : inject_Z k * (inject_Z sz / inject_Z m) <= inject_Z sz).
  { rewrite E. apply Qle_shift_div_r; [exact Hm'|].
    rewrite <- inject_Z_mult, <- Zle_Qle. nia. }
  pose proof (py_round_le 0 _ (Qle_refl 0) Hlo) as H1.
  pose proof (py_round_le _ _ Hlo Hhi) as H2.
  rewrite (py_round_Z sz Hsz) in H2. change (py_round 0) with 0%Z in H1.
  split; assumption.
Qed.

(** The resize the specification describes, from shape [(h, w)] to shape
    [(h', w')]: the longer side is [sz] within one pixel, and each new side
    is the old side times the factor, within rounding. *)
Definition resized_as_specified (sz h w h' w' : Z) : Prop :=
  (Z.abs (Z.max h' w' - sz) <= 1)%Z
  /\ Qabs (inject_Z h' - inject_Z h * factor sz h w) <= 1 # 2
  /\ Qabs (inject_Z w' - inject_Z w * factor sz h w) <= 1 # 2.

Lemma newsize_longer_side (sz h w : Z) :
  (0 <= sz)%Z -> (0 <= h)%Z -> (0 <= w)%Z -> (0 < Z.max h w)%Z ->
  Z.max (fst (newsize sz h w)) (snd (newsize sz h w)) = sz.
Proof.
  intros Hsz Hh Hw Hm. unfold newsize, factor. simpl.
  destruct (Z.max_spec h w) as [[Hlt E]|[Hle E]]; rewrite E in *.
  - rewrite (scaled_max sz w Hsz Hm).
    pose proof (scaled_other sz h w Hsz ltac:(lia) Hm). lia.
  - rewrite (scaled_max sz h Hsz Hm).
    pose proof (scaled_other sz w h Hsz ltac:(lia) Hm). lia.
Qed.

(** The pair [newsize] is the specified size, read as (rows, columns). *)
Lemma newsize_as_specified (sz h w : Z) :
  (0 <= sz)%Z -> (0 <= h)%Z -> (0 <= w)%Z -> (0 < Z.max h w)%Z ->
  resized_as_specified sz h w (fst (newsize sz h w)) (snd (newsize sz h w)).
Proof.
  intros Hsz Hh Hw Hm. split; [|split].
  - rewrite newsize_longer_side by assumption. rewrite Z.sub_diag. simpl. lia.
  - apply py_round_close.
  - apply py_round_close.
Qed.

(** ** [_load] *)

(** The image [_load] returns has the two numbers of [newsize] as its
    shape, in the other order: [newsize] lists rows before columns, and
    [cv2.resize] reads its [dsize] as columns before rows. *)
Lemma _load_shape (cv : Cv2) (self : ImageDescriptor) (path : string)
    (img img' : image) (h w : Z) :
  resize_contract cv -> cvtColor_contract cv ->
  imread path = Some img -> shape img = (h, w) ->
  _load self path = Ok img' ->
  shape img'
  = (snd (newsize (size self) h w), fst (newsize (size self) h w)).
Proof.
  intros Hr Hc Hi Hs. unfold _load. rewrite Hi, Hs.
  destruct (Z.max h w =? 0)%Z; [discriminate|].
  destruct (newsize (size self) h w) as [a b] eqn:En.
  destruct (resize img (a, b)) as [img1|e] eqn:E; simpl; [|discriminate].
  intros [= <-]. rewrite Hc. exact (Hr _ _ _ _ E).
Qed.

(** C5. An image of 100 rows and 200 columns, loaded with [size = 300]:
    [newsize] is (150, 300), the size the specification asks for, but
    [cv2.resize] takes it as 150 columns and 300 rows.  The image returned
    has shape (300, 150): its longer side is 300, and its sides are not the
    old sides times the factor 3/2. *)
Theorem _load_swaps_sides (cv : Cv2) (self : ImageDescriptor)
    (path : string) (img img1 : image) :
  resize_contract cv -> cvtColor_contract cv ->
  size self = 300%Z ->
  imread path = Some img -> shape img = (100, 200)%Z ->
  resize img (150, 300)%Z = Ok img1 ->
  _load self path = Ok (cvtColor img1)
  /\ shape (cvtColor img1) = (300, 150)%Z
  /\ ~ resized_as_specified 300 100 200 300 150
  /\ resized_as_specified 300 100 200 150 300.
Proof.
  intros Hr Hc Hsz Hi Hs He.
  assert (L : _load self path = Ok (cvtColor img1)).
  { unfold _load. rewrite Hi, Hs, Hsz.
    change (newsize 300 100 200) with (150, 300)%Z.
    simpl. rewrite He. reflexivity. }
  split; [exact L|]. split.
  - rewrite (_load_shape cv self path img _ 100 200 Hr Hc Hi Hs L), Hsz.
    reflexivity.
  - split.
    + intros (_ & H & _). vm_compute in H. apply H. reflexivity.
    + apply (newsize_as_specified 300 100 200); lia.
Qed.

Lemma _load_swaps_sides_witness :
  _load Toy.descriptor "query.png"
  = Ok {| Toy.rows := 300; Toy.cols := 150;
          Toy.found := [Toy.des 0 0; Toy.des 1 0] |}
  /\ ~ resized_as_specified 300 100 200 300 150.
Proof.
  destruct (_load_swaps_sides Toy.cv Toy.descriptor "query.png"
              Toy.query_png
              {| Toy.rows := 300; Toy.cols := 150;
                 Toy.found := [Toy.des 0 0; Toy.des 1 0] |}
              toy_resize_contract toy_cvtColor_contract
              eq_refl eq_refl eq_refl eq_refl) as (H1 & _ & H3 & _).
  split; [exact H1|exact H3].
Defined.

(** * Further properties of the program *)

(** ** The algebra of the score *)


Lemma gated_sum_perm (t : Q) (ds ds' : list Q) :
  Permutation ds ds' -> gated_sum t ds == gated_sum t ds'.
Proof.
  induction 1 as [|d l l' _ IH|d d' l|l l' l'' _ IH1 _ IH2].
  - reflexivity.
  - rewrite !gated_sum_cons, IH. reflexivity.
  - rewrite !gated_sum_cons. ring.
  - rewrite IH1. exact IH2.
Qed.

Lemma gated_sum_threshold_le (t t' : Q) (ds : list Q) :
  t <= t' -> gated_sum t ds <= gated_sum t' ds.
Proof.
  intros Ht. induction ds as [|d ds IH].
  - apply Qle_refl.
  - rewrite !gated_sum_cons.
    destruct (Qltb d t) eqn:E; destruct (Qltb d t') eqn:E';
      try apply Qltb_lt in E; try apply Qltb_lt in E';
      try apply Qltb_ge in E; try apply Qltb_ge in E'; lra.
Qed.

Lemma gated_sum_dist_le (t : Q) (ds ds' : list Q) :
  Forall2 Qle ds ds' -> gated_sum t ds' <= gated_sum t ds.
Proof.
  induction 1 as [|d d' ds ds' Hd _ IH].
  - apply Qle_refl.
  - rewrite !gated_sum_cons.
    destruct (Qltb d t) eqn:E; destruct (Qltb d' t) eqn:E';
      try apply Qltb_lt in E; try apply Qltb_lt in E';
      try apply Qltb_ge in E; try apply Qltb_ge in E'; lra.
Qed.



Section Answers.

Context {cv : Cv2}.

(** The index gives one answer per row. *)
Lemma nearest_dist_functional (knn : KNearest) (D : array)
    (ds ds' : list Q) :
  Forall2 (nearest_dist knn) D ds -> Forall2 (nearest_dist knn) D ds' ->
  ds = ds'.
Proof.
  intros H. revert ds'. induction H as [|v d D ds [_ Hd] _ IH];
    intros ds' H'; inversion H' as [|v' d' D' ds'' [_ Hd'] HF]; subst.
  - reflexivity.
  - f_equal; [congruence|apply IH; exact HF].
Qed.

Lemma _match_inv (self : Matcher) (knn : KNearest) (D : array) (score : Q) :
  _match self knn D = Ok score ->
  exists dists,
    Forall2 (nearest_dist knn) D dists
    /\ score == gated_sum (distanceThreshold self) dists.
Proof.
  intros H. destruct (_match_from_inv _ _ _ _ _ H) as (ds & HF & E).
  exists ds. split; [exact HF|]. rewrite E. ring.
Qed.

Lemma _match_sum (self : Matcher) (knn : KNearest) (D : array)
    (dists : list Q) :
  Forall2 (nearest_dist knn) D dists ->
  exists score,
    _match self knn D = Ok score
    /\ score == gated_sum (distanceThreshold self) dists.
Proof.
  intros HF. destruct (_match_from_sum self knn D dists HF 0) as (s & Hs & E).
  exists s. split; [exact Hs|]. rewrite E. ring.
Qed.

Lemma _match_threshold_le (self self' : Matcher) (knn : KNearest)
    (D : array) (s s' : Q) :
  distanceThreshold self <= distanceThreshold self' ->
  _match self knn D = Ok s -> _match self' knn D = Ok s' -> s <= s'.
Proof.
  intros Ht H H'.
  destruct (_match_inv _ _ _ _ H) as (ds & HF & E).
  destruct (_match_inv _ _ _ _ H') as (ds' & HF' & E').
  rewrite (nearest_dist_functional _ _ _ _ HF' HF) in E'.
  rewrite E, E'. apply gated_sum_threshold_le. exact Ht.
Qed.

End Answers.

Section Thresholds.

Context {cv : Cv2}.

Lemma match_files_threshold_le (self self' : Matcher) (knn : KNearest)
    (db : node) (files : list string) :
  distanceThreshold self <= distanceThreshold self' ->
  snd (match_files self knn db files) = snd (match_files self' knn db files)
  /\ Forall2 (fun p p' => fst p = fst p' /\ snd p <= snd p')
       (fst (match_files self knn db files))
       (fst (match_files self' knn db files)).
Proof.
  intros Ht. induction files as [|f rest [IH1 IH2]]; simpl.
  - split; [reflexivity|constructor].
  - destruct (String.eqb (snd (PyStr.splitext f)) ".npy"); [|auto].
    destruct (np_load db f) as [D|e]; [|split; [reflexivity|constructor]].
    pose proof (_match_from_same_ending self self' knn D 0 0) as H.
    pose proof (_match_threshold_le self self' knn D) as Hle.
    unfold _match in *.
    destruct (_match_from self knn D 0) as [s|e],
             (_match_from self' knn D 0) as [s'|e'];
      simpl in H; try contradiction.
    + simpl. split; [exact IH1|]. constructor; [|exact IH2].
      simpl. split; [reflexivity|]. apply Hle; auto.
    + subst. split; [reflexivity|constructor].
Qed.

End Thresholds.

(** X1. Raising the threshold changes neither the names [match] yields
    nor the way the run ends, and lowers no score. *)
Theorem raising_threshold_raises_scores (cv : Cv2) (self : Matcher)
    (db : node) (imgpath : string) (t t' : Q) :
  t <= t' ->
  snd (match_ (with_threshold self t) db imgpath)
  = snd (match_ (with_threshold self t') db imgpath)
  /\ Forall2 (fun p p' => fst p = fst p' /\ snd p <= snd p')
       (fst (match_ (with_threshold self t) db imgpath))
       (fst (match_ (with_threshold self t') db imgpath)).
Proof.
  intros Ht. unfold match_, _getKnn. simpl.
  destruct (getDescriptors (imageDescriptor self) imgpath) as [q|e];
    [|split; [reflexivity|constructor]].
  destruct (knn_train q (arange (List.length q))) as [knn|e];
    [|split; [reflexivity|constructor]].
  apply match_files_threshold_le. exact Ht.
Qed.

Lemma raising_threshold_raises_scores_witness :
  snd (match_ (with_threshold (Toy.matcher 1) (1 # 2)) Toy.db "query.png")
  = snd (match_ (with_threshold (Toy.matcher 1) 1) Toy.db "query.png")
  /\ Forall2 (fun p p' => fst p = fst p' /\ snd p <= snd p')
       (fst (match_ (with_threshold (Toy.matcher 1) (1 # 2)) Toy.db
               "query.png"))
       (fst (match_ (with_threshold (Toy.matcher 1) 1) Toy.db "query.png")).
Proof.
  apply (raising_threshold_raises_scores Toy.cv (Toy.matcher 1) Toy.db
           "query.png" (1 # 2) 1).
  unfold Qle. simpl. lia.
Defined.







(** X5. The score does not depend on the order of the rows of the
    array. *)
Theorem _match_permutation (cv : Cv2) (self : Matcher) (knn : KNearest)
    (D D' : array) (score : Q) :
  Permutation D D' ->
  _match self knn D = Ok score ->
  exists score', _match self knn D' = Ok score' /\ score' == score.
Proof.
  intros HP H. destruct (_match_inv _ _ _ _ H) as (ds & HF & E).
  destruct (Permutation_Forall2 HP HF) as (ds' & HP' & HF').
  destruct (_match_sum self knn D' ds' HF') as (s' & Hs' & E').
  exists s'. split; [exact Hs'|].
  rewrite E, E'. symmetry. apply gated_sum_perm. exact HP'.
Qed.

Lemma _match_permutation_witness :
  exists score',
    _match (Toy.matcher 1) [Toy.des 0 0; Toy.des 1 0]
      [Toy.des (1 # 2) 0; Toy.des 0 (1 # 10)] = Ok score'
    /\ score' == 696 # 400.
Proof.
  apply (_match_permutation Toy.cv (Toy.matcher 1) [Toy.des 0 0; Toy.des 1 0]
           [Toy.des 0 (1 # 10); Toy.des (1 # 2) 0]
           [Toy.des (1 # 2) 0; Toy.des 0 (1 # 10)] (696 # 400)).
  - apply perm_swap.
  - vm_compute. reflexivity.
Defined.

(** X6. A row that does not hold 128 numbers makes [_match] raise
    [ValueError], once the rows before it have been answered; a row the
    index refuses makes it raise the error of the index. *)
Theorem _match_bad_row (cv : Cv2) (self : Matcher) (knn : KNearest)
    (pre post : array) (dists : list Q) (v : vec) :
  Forall2 (nearest_dist knn) pre dists ->
  (List.length v <> 128%nat ->
   _match self knn (pre ++ v :: post)%list = Raise ValueError)
  /\ (forall e, List.length v = 128%nat ->
        knn_find_nearest knn v = Raise e ->
        _match self knn (pre ++ v :: post)%list = Raise e).
Proof.
  intros HF. unfold _match. generalize 0 as acc.
  induction HF as [|u d pre ds [Hlen Hd] _ IH]; intros acc.
  - split.
    + intros Hv. simpl. unfold reshape_1_128.
      apply Nat.eqb_neq in Hv. rewrite Hv. reflexivity.
    + intros e Hv He. simpl. rewrite (reshape_ok _ Hv). simpl.
      rewrite He. reflexivity.
  - simpl. rewrite (reshape_ok _ Hlen). simpl. rewrite Hd. simpl.
    apply IH.
Qed.

Lemma _match_bad_row_witness :
  _match (Toy.matcher 1) [Toy.des 0 0; Toy.des 1 0]
    ([Toy.des 0 0] ++ [0; 1; 2] :: [Toy.des 1 0])%list = Raise ValueError.
Proof.
  refine (proj1 (_match_bad_row Toy.cv (Toy.matcher 1)
                   [Toy.des 0 0; Toy.des 1 0] [Toy.des 0 0] [Toy.des 1 0]
                   [0] [0; 1; 2] _) _).
  - repeat constructor.
  - simpl. lia.
Defined.

(** X7. Nearer rows score more: when the distances of one array are, row
    by row, at most those of another, its score is at least the other's. *)
Theorem nearer_rows_score_more (cv : Cv2) (self : Matcher)
    (knn knn' : KNearest) (D D' : array) (dists dists' : list Q)
    (s s' : Q) :
  Forall2 (nearest_dist knn) D dists ->
  Forall2 (nearest_dist knn') D' dists' ->
  Forall2 Qle dists dists' ->
  _match self knn D = Ok s ->
  _match self knn' D' = Ok s' ->
  s' <= s.
Proof.
  intros HF HF' Hle H H'.
  destruct (_match_inv _ _ _ _ H) as (ds & HG & E).
  destruct (_match_inv _ _ _ _ H') as (ds' & HG' & E').
  rewrite (nearest_dist_functional _ _ _ _ HG HF) in E.
  rewrite (nearest_dist_functional _ _ _ _ HG' HF') in E'.
  rewrite E, E'. apply gated_sum_dist_le. exact Hle.
Qed.

Lemma nearer_rows_score_more_witness : 3 # 4 <= 99 # 100.
Proof.
  apply (nearer_rows_score_more Toy.cv (Toy.matcher 1)
           [Toy.des 0 0; Toy.des 1 0] [Toy.des 0 0; Toy.des 1 0]
           [Toy.des 0 (1 # 10)] [Toy.des (1 # 2) 0]
           [1 # 100] [1 # 4]).
  - repeat constructor.
  - repeat constructor.
  - repeat constructor. unfold Qle. simpl. lia.
  - vm_compute. reflexivity.
  - vm_compute. reflexivity.
Defined.

(** ** The files [match] reads *)

Section Catalog.

Context {cv : Cv2}.

Lemma match_files_prefix (self : Matcher) (knn : KNearest) (db : node)
    (files : list string) :
  exists rest,
    filter is_npy files
    = (map fst (fst (match_files self knn db files)) ++ rest)%list.
Proof.
  induction files as [|f files [rest IH]]; simpl.
  - exists []. reflexivity.
  - unfold is_npy at 1.
    destruct (String.eqb (snd (PyStr.splitext f)) ".npy").
    + destruct (np_load db f) as [D|e]; [|eexists; reflexivity].
      destruct (_match self knn D) as [s|e]; [|eexists; reflexivity].
      exists rest. simpl. rewrite IH. reflexivity.
    + exists rest. exact IH.
Qed.

Lemma np_load_inv (db : node) (file : string) (D : array) :
  np_load db file = Ok D ->
  exists es, db = Dir es /\ lookup file es = Some (File (Npy D)).
Proof.
  destruct db as [c|es]; simpl; [discriminate|].
  destruct (lookup file es) as [[[a|]|]|] eqn:E; try discriminate.
  intros [= <-]. exists es. auto.
Qed.

End Catalog.

(** X8. However the run ends, the names [match] has yielded are the first
    of the walked [.npy] files, in walk order, with none left out in
    between. *)
Theorem match_names_prefix (cv : Cv2) (self : Matcher) (db : node)
    (imgpath : string) :
  exists rest,
    filter is_npy (walked_files (dbfolder self) db)
    = (map fst (fst (match_ self db imgpath)) ++ rest)%list.
Proof.
  unfold match_.
  destruct (getDescriptors (imageDescriptor self) imgpath) as [q|e];
    [|eexists; reflexivity].
  destruct (_getKnn self q) as [knn|e]; [|eexists; reflexivity].
  apply match_files_prefix.
Qed.

(** X9. [match] joins every walked name to [dbfolder], not to the folder
    the walk found it in.  So every yielded score comes from an array
    stored in [dbfolder] itself, and a [.npy] file that exists only in a
    sub-folder ends the run with [IOError]. *)
Theorem match_reads_top_folder (cv : Cv2) (self : Matcher)
    (imgpath : string) :
  (forall db file score,
      In (file, score) (fst (match_ self db imgpath)) ->
      exists es D, db = Dir es /\ lookup file es = Some (File (Npy D)))
  /\ (forall query knn sub x a,
         getDescriptors (imageDescriptor self) imgpath = Ok query ->
         knn_train query (arange (List.length query)) = Ok knn ->
         is_npy x = true ->
         match_ self (Dir [(sub, Dir [(x, File (Npy a))])]) imgpath
         = ([], Raised IOError)).
Proof.
  split.
  - intros db file score H.
    destruct (match_yielded _ _ _ _ _ H) as (q & knn & _ & _ & Hin).
    destruct (match_files_yielded _ _ _ _ _ _ Hin) as (_ & _ & D & Hl & _).
    destruct (np_load_inv _ _ _ Hl) as (es & E1 & E2).
    exists es, D. auto.
  - intros q knn sub x a Hq Hk Hx. unfold match_, _getKnn.
    rewrite Hq, Hk. unfold walked_files. simpl.
    unfold is_npy in Hx. rewrite Hx. destruct (String.eqb sub x); reflexivity.
Qed.

Lemma match_reads_top_folder_witness :
  match_ (Toy.matcher 1)
    (Dir [("sub", Dir [("x.npy", File (Npy [Toy.des 0 0]))])]) "query.png"
  = ([], Raised IOError).
Proof.
  apply (proj2 (match_reads_top_folder Toy.cv (Toy.matcher 1) "query.png")
           [Toy.des 0 0; Toy.des 1 0] [Toy.des 0 0; Toy.des 1 0]
           "sub" "x.npy" [Toy.des 0 0]); reflexivity.
Defined.

(** X10. An image that cannot be read makes [match] raise
    [AttributeError] before any catalog file is scored, whatever the
    catalog and the threshold. *)
Theorem match_missing_query (cv : Cv2) (self : Matcher) (db : node)
    (imgpath : string) :
  imread imgpath = None ->
  getDescriptors (imageDescriptor self) imgpath = Raise AttributeError
  /\ match_ self db imgpath = ([], Raised AttributeError).
Proof.
  intros H.
  assert (E : getDescriptors (imageDescriptor self) imgpath
              = Raise AttributeError).
  { unfold getDescriptors, _load. rewrite H. reflexivity. }
  split; [exact E|]. unfold match_. rewrite E. reflexivity.
Qed.

Lemma match_missing_query_witness :
  getDescriptors Toy.descriptor "nope.png" = Raise AttributeError
  /\ match_ (Toy.matcher 1) Toy.db "nope.png" = ([], Raised AttributeError).
Proof.
  apply (match_missing_query Toy.cv (Toy.matcher 1) Toy.db "nope.png").
  reflexivity.
Defined.

(** ** How [build] ends *)

(** The end of the loops of [build] over the walked files: the first file
    that is not passed over stops the run. *)
Fixpoint build_stop (files : list string) : outcome :=
  match files with
  | [] => Finished
  | f :: rest =>
      match eligible f (snd (PyStr.splitext f)) with
      | Ok false => build_stop rest
      | Ok true => Raised NameError
      | Raise e => Raised e
      end
  end.

Lemma build_stop_app (pre rest : list string) :
  build_stop (pre ++ rest)
  = match build_stop pre with
    | Finished => build_stop rest
    | Raised e => Raised e
    end.
Proof.
  induction pre as [|f pre IH]; simpl; [reflexivity|].
  destruct (eligible f (snd (PyStr.splitext f))) as [[|]|e]; auto.
Qed.

Lemma build_stop_passed (files : list string) :
  Forall (fun f => eligible f (snd (PyStr.splitext f)) = Ok false) files ->
  build_stop files = Finished.
Proof.
  induction 1 as [|f files Hf _ IH]; simpl; [reflexivity|].
  rewrite Hf. exact IH.
Qed.

Section BuildOutcome.

Context {cv : Cv2}.

Lemma build_files_stop (self : DatabaseBuilder) (root : string)
    (files : list string) (out : saved) :
  build_files self root files out = (out, build_stop files).
Proof.
  induction files as [|f rest IH]; simpl; [reflexivity|].
  rewrite build_file_cases.
  destruct (eligible f (snd (PyStr.splitext f))) as [[|]|e];
    [reflexivity|exact IH|reflexivity].
Qed.

Lemma build_walk_stop (self : DatabaseBuilder)
    (triples : list (string * list string * list string)) (out : saved) :
  build_walk self triples out
  = (out, build_stop (flat_map (fun t => snd t) triples)).
Proof.
  induction triples as [|[[root dirs] files] rest IH]; simpl;
    [reflexivity|].
  rewrite build_files_stop, build_stop_app.
  destruct (build_stop files); [exact IH|reflexivity].
Qed.

End BuildOutcome.

(** X11. [build] finishes, having saved nothing, when its test passes
    over every walked file; otherwise the first file the test does not
    pass over ends the run, with [NameError] when the test accepts it and
    with the error of the test when the test raises.  The descriptor and
    the output folder play no part. *)
Theorem build_outcome (cv : Cv2) (self : DatabaseBuilder) (input : node) :
  (Forall (fun f => eligible f (snd (PyStr.splitext f)) = Ok false)
          (walked_files (inputFolder self) input) ->
   build self input = ([], Finished))
  /\ (forall pre f post,
         walked_files (inputFolder self) input = (pre ++ f :: post)%list ->
         Forall (fun f => eligible f (snd (PyStr.splitext f)) = Ok false)
                pre ->
         (eligible f (snd (PyStr.splitext f)) = Ok true ->
          build self input = ([], Raised NameError))
         /\ (forall e, eligible f (snd (PyStr.splitext f)) = Raise e ->
               build self input = ([], Raised e))).
Proof.
  unfold build. rewrite build_walk_stop.
  fold (walked_files (inputFolder self) input). split.
  - intros H. rewrite (build_stop_passed _ H). reflexivity.
  - intros pre f post E Hpre. rewrite E, build_stop_app.
    rewrite (build_stop_passed _ Hpre). simpl. split.
    + intros Hf. rewrite Hf. reflexivity.
    + intros e Hf. rewrite Hf. reflexivity.
Qed.

Lemma build_outcome_witness :
  build Toy.builder
    (Dir [("_skip.png", File Blob); ("c.txt", File Blob);
          ("a.png", File Blob)])
  = ([], Raised NameError)
  /\ build Toy.builder (Dir [("_skip.png", File Blob); ("c.txt", File Blob)])
     = ([], Finished).
Proof.
  split.
  - assert (Hpre : Forall (fun f => eligible f (snd (PyStr.splitext f))
                                    = Ok false) ["_skip.png"; "c.txt"])
      by (repeat constructor).
    exact (proj1 (proj2 (build_outcome Toy.cv Toy.builder
                           (Dir [("_skip.png", File Blob);
                                 ("c.txt", File Blob);
                                 ("a.png", File Blob)]))
                    ["_skip.png"; "c.txt"] "a.png" [] eq_refl Hpre)
             eq_refl).
  - apply (proj1 (build_outcome Toy.cv Toy.builder
                    (Dir [("_skip.png", File Blob); ("c.txt", File Blob)]))).
    repeat constructor.
Defined.

(** ** The test of [build] *)

Lemma take_zero_or_has_other (n : nat) (s : string) :
  PyStr.has_other "." (PyStr.take n s) = true -> (1 <= n)%nat.
Proof. destruct n; simpl; [discriminate|lia]. Qed.

Lemma mem_In (x : string) (l : list string) :
  PyStr.mem x l = true -> In x l.
Proof.
  unfold PyStr.mem. intros H. apply existsb_exists in H.
  destruct H as (e & Hin & Heq). apply String.eqb_eq in Heq.
  rewrite Heq. exact Hin.
Qed.

(** A name with an extension has something before the extension. *)
Lemma splitext_stem (p : string) :
  snd (PyStr.splitext p) <> "" ->
  (String.length (snd (PyStr.splitext p)) < String.length p)%nat.
Proof.
  unfold PyStr.splitext.
  destruct (PyStr.rfind "." p) as [i|]; simpl; [|congruence].
  match goal with |- context [if ?b then _ else _] => destruct b eqn:E end;
    simpl; [|congruence].
  apply andb_prop in E. destruct E as [_ E].
  apply take_zero_or_has_other in E. intros Hne.
  rewrite drop_length.
  assert (String.length (PyStr.drop i p) <> 0)%nat.
  { destruct (PyStr.drop i p); [congruence|simpl; lia]. }
  rewrite drop_length in H. lia.
Qed.

(** X12. A name the test of [build] accepts does not start with an
    underscore and ends with one of the supported extensions, with at
    least one character before it; the check is case sensitive as the list
    is.  The empty name raises [IndexError]. *)
Theorem eligible_names (file : string) :
  (eligible file (snd (PyStr.splitext file)) = Ok true ->
   exists c rest e,
     file = String c rest /\ c <> "_"%char
     /\ In e SUPPORTED_EXTS
     /\ PyStr.endswith file e = true
     /\ (String.length e < String.length file)%nat)
  /\ eligible "" (snd (PyStr.splitext "")) = Raise IndexError.
Proof.
  split; [|reflexivity].
  unfold eligible. destruct file as [|c rest]; cbn [py_index0 bind];
    [discriminate|].
  intros [= H]. apply andb_prop in H. destruct H as [Hc He].
  exists c, rest, (snd (PyStr.splitext (String c rest))).
  pose proof (mem_In (snd (PyStr.splitext (String c rest))) SUPPORTED_EXTS
                He) as Hin.
  split; [reflexivity|]. split.
  - intros ->. discriminate.
  - split; [exact Hin|]. split; [apply splitext_endswith|].
    apply splitext_stem. intros E. rewrite E in Hin. simpl in Hin.
    repeat (destruct Hin as [Hin|Hin]; [discriminate|]). exact Hin.
Qed.

Lemma eligible_names_witness :
  exists c rest e,
    "a.png" = String c rest /\ c <> "_"%char
    /\ In e SUPPORTED_EXTS
    /\ PyStr.endswith "a.png" e = true
    /\ (String.length e < String.length "a.png")%nat.
Proof.
  apply (proj1 (eligible_names "a.png")). reflexivity.
Defined.

(** ** The size [_load] asks for *)

(** X13. The image [_load] returns has [size] as its longer side, for any
    image it can resize; a square image comes back as [size] by [size]. *)
Theorem _load_longer_side (cv : Cv2) (self : ImageDescriptor)
    (path : string) (img img' : image) (h w : Z) :
  resize_contract cv -> cvtColor_contract cv ->
  (0 <= size self)%Z ->
  imread path = Some img -> shape img = (h, w) ->
  (0 <= h)%Z -> (0 <= w)%Z ->
  _load self path = Ok img' ->
  Z.max (fst (shape img')) (snd (shape img')) = size self
  /\ (h = w -> shape img' = (size self, size self)).
Proof.
  intros Hr Hc Hsz Hi Hs Hh Hw Hl.
  assert (Hm : (0 < Z.max h w)%Z).
  { unfold _load in Hl. rewrite Hi, Hs in Hl.
    destruct (Z.eqb_spec (Z.max h w) 0); [discriminate|lia]. }
  rewrite (_load_shape cv self path img img' h w Hr Hc Hi Hs Hl). simpl.
  split.
  - rewrite Z.max_comm.
    apply (newsize_longer_side (size self) h w); assumption.
  - intros <-. rewrite Z.max_id in Hm. unfold newsize, factor.
    rewrite Z.max_id. simpl. rewrite (scaled_max (size self) h Hsz Hm).
    reflexivity.
Qed.

Lemma _load_longer_side_witness :
  exists img',
    _load Toy.descriptor "query.png" = Ok img'
    /\ Z.max (fst (@shape Toy.cv img')) (snd (@shape Toy.cv img')) = 300%Z.
Proof.
  exists {| Toy.rows := 300; Toy.cols := 150;
            Toy.found := [Toy.des 0 0; Toy.des 1 0] |}.
  split; [reflexivity|].
  apply (_load_longer_side Toy.cv Toy.descriptor "query.png" Toy.query_png
           _ 100 200 toy_resize_contract toy_cvtColor_contract);
    try reflexivity; simpl; lia.
Defined.

Lemma py_round_small (x : Q) : 0 <= x -> x < 1 # 2 -> py_round x = 0%Z.
Proof.
  intros H0 H1. rewrite (py_round_nonneg x H0).
  pose proof (Qfloor_le (x + (1 # 2))) as Hlo.
  pose proof (Qlt_floor (x + (1 # 2))) as Hhi.
  rewrite inject_Z_plus in Hhi. change (inject_Z 1) with 1 in Hhi.
  assert (A : inject_Z (Qfloor (x + (1 # 2))) < inject_Z 1)
    by (change (inject_Z 1) with 1; lra).
  assert (B : inject_Z (-1) < inject_Z (Qfloor (x + (1 # 2))))
    by (change (inject_Z (-1)) with (-1 # 1); lra).
  rewrite <- Zlt_Qlt in A, B. lia.
Qed.

(** X14. An image more than [2 * size] times as wide as it is high gets 0
    as its first new size: [_load] then asks [cv2.resize] for the size
    [(0, size)]. *)
Theorem newsize_thin_image (cv : Cv2) (self : ImageDescriptor)
    (path : string) (img : image) (h w : Z) :
  (0 < size self)%Z -> (0 <= h)%Z -> (2 * h * size self < w)%Z ->
  imread path = Some img -> shape img = (h, w) ->
  newsize (size self) h w = (0%Z, size self)
  /\ _load self path
     = (img1 <- resize img (0%Z, size self) ;; Ok (cvtColor img1)).
Proof.
  intros Hsz Hh Hthin Hi Hs.
  assert (Hw : (0 < w)%Z) by nia.
  assert (Hmax : Z.max h w = w) by nia.
  assert (E : newsize (size self) h w = (0%Z, size self)).
  { unfold newsize, factor. rewrite Hmax. f_equal.
    - assert (Hw' : inject_Z 0 < inject_Z w) by (rewrite <- Zlt_Qlt; lia).
      change (inject_Z 0) with 0 in Hw'.
      assert (Hq : ~ inject_Z w == 0) by lra.
      assert (Ex : inject_Z h * (inject_Z (size self) / inject_Z w)
                   == inject_Z (h * size self) / inject_Z w)
        by (rewrite inject_Z_mult; field; exact Hq).
      apply py_round_small; rewrite Ex.
      + apply Qle_shift_div_l; [exact Hw'|]. rewrite Qmult_0_l.
        change 0 with (inject_Z 0). rewrite <- Zle_Qle. nia.
      + apply Qlt_shift_div_r; [exact Hw'|].
        assert (L : inject_Z (2 * (h * size self)) < inject_Z w)
          by (rewrite <- Zlt_Qlt; lia).
        rewrite inject_Z_mult in L. change (inject_Z 2) with 2 in L. lra.
    - apply scaled_max; lia. }
  split; [exact E|].
  unfold _load. rewrite Hi, Hs, Hmax, E.
  destruct (Z.eqb_spec w 0); [lia|reflexivity].
Qed.

(** The small OpenCV with a disk that holds one image, 1 high and 1000
    wide. *)
Definition thin_png : Toy.timage :=
  {| Toy.rows := 1; Toy.cols := 1000; Toy.found := [] |}.

Definition thin_cv : Cv2 := {|
  image := Toy.timage;
  keypoint := vec;
  KNearest := array;
  shape := @shape Toy.cv;
  imread := fun _ => Some thin_png;
  resize := @resize Toy.cv;
  cvtColor := @cvtColor Toy.cv;
  surf_compute := @surf_compute Toy.cv;
  knn_train := @knn_train Toy.cv;
  knn_find_nearest := @knn_find_nearest Toy.cv
|}.

Definition thin_descriptor : @ImageDescriptor thin_cv :=
  @Build_ImageDescriptor thin_cv 300 Toy.found.

Lemma newsize_thin_image_witness :
  newsize 300 1 1000 = (0%Z, 300%Z)
  /\ _load thin_descriptor "thin.png" = Raise CvError.
Proof.
  destruct (newsize_thin_image thin_cv thin_descriptor "thin.png"
              thin_png 1 1000) as [H1 H2];
    try reflexivity; try (simpl; lia).
  split; [exact H1|]. rewrite H2. reflexivity.
Defined.

(** ** More on scores and on the catalog *)

Lemma gated_sum_pos_iff (t : Q) (ds : list Q) :
  0 < gated_sum t ds <-> Exists (fun d => d < t) ds.
Proof.
  induction ds as [|d ds IH].
  - split; [|intros H; inversion H].
    unfold gated_sum. simpl. intros H. exfalso. lra.
  - rewrite gated_sum_cons. pose proof (gated_sum_nonneg t ds) as Hn.
    destruct (Qltb d t) eqn:E.
    + apply Qltb_lt in E. split; [intros _; left; exact E|intros _; lra].
    + apply Qltb_ge in E. split.
      * intros H. right. apply IH. lra.
      * intros H. inversion H as [? ? Hd|? ? Hex]; subst; [lra|].
        apply IH in Hex. lra.
Qed.

(** X15. The score of an array is positive exactly when one of its rows
    lies nearer to the index than the threshold; otherwise it is 0. *)
Theorem score_positive_iff (cv : Cv2) (self : Matcher) (knn : KNearest)
    (D : array) (dists : list Q) (score : Q) :
  Forall2 (nearest_dist knn) D dists ->
  _match self knn D = Ok score ->
  (0 < score <-> Exists (fun d => d < distanceThreshold self) dists)
  /\ (~ Exists (fun d => d < distanceThreshold self) dists -> score == 0).
Proof.
  intros HF H. destruct (_match_inv _ _ _ _ H) as (ds & HG & E).
  rewrite (nearest_dist_functional _ _ _ _ HG HF) in E.
  pose proof (gated_sum_pos_iff (distanceThreshold self) dists) as Hiff.
  pose proof (gated_sum_nonneg (distanceThreshold self) dists) as Hn.
  split.
  - rewrite E. exact Hiff.
  - intros Hno. rewrite E.
    destruct (Qlt_le_dec 0 (gated_sum (distanceThreshold self) dists))
      as [Hp|Hz].
    + exfalso. apply Hno. apply Hiff. exact Hp.
    + lra.
Qed.

Lemma score_positive_iff_witness :
  0 < 3 # 4 <-> Exists (fun d => d < 1) [1 # 4].
Proof.
  apply (score_positive_iff Toy.cv (Toy.matcher 1) [Toy.des 0 0; Toy.des 1 0]
           [Toy.des (1 # 2) 0] [1 # 4] (3 # 4)).
  - repeat constructor.
  - vm_compute. reflexivity.
Defined.

(** X16. A name that is stored in [dbfolder] and again in a sub-folder is
    yielded twice, both times with the score of the array in [dbfolder]:
    the array in the sub-folder is never read. *)
Theorem match_same_name_in_subfolder (cv : Cv2) (self : Matcher)
    (imgpath : string) (query : array) (knn : KNearest)
    (x sub : string) (a b : array) (score : Q) :
  getDescriptors (imageDescriptor self) imgpath = Ok query ->
  knn_train query (arange (List.length query)) = Ok knn ->
  is_npy x = true ->
  _match self knn a = Ok score ->
  match_ self (Dir [(x, File (Npy a)); (sub, Dir [(x, File (Npy b))])])
    imgpath
  = ([(x, score); (x, score)], Finished).
Proof.
  intros Hq Hk Hx Hm. unfold match_, _getKnn. rewrite Hq, Hk.
  unfold walked_files. simpl. unfold is_npy in Hx.
  rewrite Hx, String.eqb_refl, Hm. reflexivity.
Qed.

Lemma match_same_name_in_subfolder_witness :
  match_ (Toy.matcher 1)
    (Dir [("x.npy", File (Npy [Toy.des (1 # 2) 0]));
          ("sub", Dir [("x.npy", File (Npy [Toy.des 0 0]))])]) "query.png"
  = ([("x.npy", 3 # 4); ("x.npy", 3 # 4)], Finished).
Proof.
  apply (match_same_name_in_subfolder Toy.cv (Toy.matcher 1) "query.png"
           [Toy.des 0 0; Toy.des 1 0] [Toy.des 0 0; Toy.des 1 0]
           "x.npy" "sub" [Toy.des (1 # 2) 0] [Toy.des 0 0] (3 # 4));
    reflexivity.
Defined.

(** ** When [getDescriptors] succeeds *)











